(** * The todo-list reducer and its action creators

    A shallow embedding of the final versions of [actions/types.ts],
    [actions/todos.ts] and [reducers/todos.ts] as they are built up in the
    notes, followed by the properties of the action/reducer contract.

    Two readings of the reducer are given.  [todosReducer] works on the
    contents of the arrays and is what the functional properties are stated
    on.  [todosReducerRef] works on array references in a store and is used
    for the properties that speak about identity of arrays (which array is
    handed back, whether anything already allocated is changed).  The two are
    connected by [todosReducerRef_contents]. *)

From stdpp Require Import gmap strings list fin_maps.

Local Open Scope Z_scope.

(** ** Data model *)

(** [interface Todo { id: number; title: string; completed: boolean }].
    The identifiers served by the API are integers, and they are modelled as
    such: [!==] on them is integer disequality. *)
Record Todo : Type := mkTodo {
  id : Z;
  title : string;
  completed : bool;
}.

#[global] Instance Todo_eq_dec : EqDecision Todo.
Proof. solve_decision. Defined.

(** [enum ActionTypes { fetchTodos, deleteTodo }]: a numeric enum without
    initialisers, so the members are numbered from 0. *)
Module ActionTypes.
Definition fetchTodos : Z := 0.
Definition deleteTodo : Z := 1.
End ActionTypes.

(** What the [type] field of an action can hold at run time: a member of
    [ActionTypes], or the text tag of one of the actions that the store sends
    on its own when it boots. *)
Inductive tag : Type :=
  | TNum (n : Z)
  | TStr (s : string).

#[global] Instance tag_eq_dec : EqDecision tag.
Proof. solve_decision. Defined.

(** [type Action = FetchTodosAction | DeleteTodoAction], extended with the
    actions of the store itself, which reach every reducer although the
    declared union does not list them.  Their tag is a text, which the
    [switch] (a comparison with [===]) never takes for a member of the enum,
    and they carry no payload that the reducer reads. *)
Inductive Action : Type :=
  | FetchTodosAction (payload : list Todo)
  | DeleteTodoAction (payload : Z)
  | AnyAction (type : string).

Definition type (action : Action) : tag :=
  match action with
  | FetchTodosAction _ => TNum ActionTypes.fetchTodos
  | DeleteTodoAction _ => TNum ActionTypes.deleteTodo
  | AnyAction s => TStr s
  end.

(** ** Action creators *)

(** [deleteTodo = (id: number): DeleteTodoAction =>
      ({ type: ActionTypes.deleteTodo, payload: id })] *)
Definition deleteTodo (id : Z) : Action := DeleteTodoAction id.

(** ** The reducer, on array contents *)

(** [switch (action.type) {
       case ActionTypes.fetchTodos: return action.payload;
       case ActionTypes.deleteTodo:
         return state.filter((todo: Todo) => todo.id !== action.payload);
       default: return state; }] *)
Definition todosReducer (state : list Todo) (action : Action) : list Todo :=
  match action with
  | FetchTodosAction payload => payload
  | DeleteTodoAction payload => filter (λ todo, id todo ≠ payload) state
  | AnyAction _ => state
  end.

(** The default parameter [state: Todo[] = []]: a call with [undefined] for
    the state runs the body on the empty array. *)
Definition todosReducer_call (state : option (list Todo)) (action : Action)
  : list Todo :=
  todosReducer (default [] state) action.

(** The identifiers of a list, in order. *)
Definition ids (l : list Todo) : list Z := id <$> l.

(** Identifiers are pairwise distinct. *)
Definition unique_ids (l : list Todo) : Prop := NoDup (ids l).

#[global] Instance unique_ids_dec l : Decision (unique_ids l).
Proof. unfold unique_ids. apply _. Defined.

(** [result] is [state] with one item of identifier [k] taken out and
    nothing else changed. *)
Definition excludes_one (state : list Todo) (k : Z) (result : list Todo)
  : Prop :=
  ∃ l1 t l2, state = l1 ++ t :: l2 ∧ id t = k ∧ result = l1 ++ l2.

(** ** The reducer, on array references *)

(** Arrays live in a store and are passed around by reference. *)
Abbreviation loc := nat (only parsing).
Abbreviation store := (gmap nat (list Todo)) (only parsing).

(** An array literal or the result of [filter]: a new array at a location
    that the store does not use yet. *)
Definition alloc (h : store) (v : list Todo) : store * loc :=
  let l := fresh (dom h) in (<[l := v]> h, l).

(** Actions whose payload array is given by reference. *)
Inductive ActionRef : Type :=
  | FetchTodosRef (payload : loc)
  | DeleteTodoRef (payload : Z)
  | AnyRef (type : string).

(** The contents an action denotes in a store. *)
Definition action_in (h : store) (action : ActionRef) : option Action :=
  match action with
  | FetchTodosRef p => FetchTodosAction <$> h !! p
  | DeleteTodoRef k => Some (DeleteTodoAction k)
  | AnyRef s => Some (AnyAction s)
  end.

(** The same function with the store made explicit.  [state] is [None] for
    [undefined], in which case the default parameter builds an empty array.
    [FetchTodosRef] hands back the payload reference, [AnyRef] the state
    reference, and only [DeleteTodoRef] builds a new array.  The result is
    [None] when [filter] is called on something that is not an array of the
    store. *)
Definition todosReducerRef (h : store) (state : option loc)
    (action : ActionRef) : option (store * loc) :=
  let '(h, state) :=
    match state with
    | Some l => (h, l)
    | None => alloc h []
    end in
  match action with
  | FetchTodosRef payload => Some (h, payload)
  | DeleteTodoRef payload =>
      arr ← h !! state;
      Some (alloc h (filter (λ todo, id todo ≠ payload) arr))
  | AnyRef _ => Some (h, state)
  end.

(** The contents of the state argument of a call. *)
Definition state_in (h : store) (state : option loc) : option (list Todo) :=
  match state with
  | Some l => h !! l
  | None => Some []
  end.

(** The reference handed back is not one of the store the call started
    from. *)
Definition returns_new_array (h : store) (state : option loc)
    (action : ActionRef) : Prop :=
  ∀ h' r, todosReducerRef h state action = Some (h', r) → r ∉ dom h.

(** Sample data for the worked examples. *)
Definition todo_a : Todo := mkTodo 1 "a" false.
Definition todo_b : Todo := mkTodo 2 "b" false.
Definition todo_a' : Todo := mkTodo 1 "a again" true.
Definition redux_init : string := "@@redux/INIT".

(** ** The store: [reducers/index.ts] and [index.tsx] *)

(** [interface StoreState { todos: Todo[] }] *)
Record StoreState : Type := mkStoreState {
  todos : list Todo;
}.

(** [reducers = combineReducers<StoreState>({ todos: todosReducer })].
    The combined reducer runs the reducer of each key on the slice of the
    state under that key, which is [undefined] as long as there is no state,
    and collects the results under the same keys. *)
Definition reducers (state : option StoreState) (action : Action)
  : StoreState :=
  {| todos := todosReducer_call (todos <$> state) action |}.

(** [createStore(reducers, applyMiddleware(thunk))]: the first state is what
    the reducers make of no state and the store's own first action. *)
Definition initial_state : StoreState := reducers None (AnyAction redux_init).

(** Dispatching an action replaces the state of the store by what the
    reducers make of it. *)
Definition dispatch (state : StoreState) (action : Action) : StoreState :=
  reducers (Some state) action.

Definition dispatch_all (state : StoreState) (actions : list Action)
  : StoreState :=
  foldl dispatch state actions.

Definition is_fetch (action : Action) : bool :=
  match action with
  | FetchTodosAction _ => true
  | _ => false
  end.


(** ** The asynchronous action creator *)

(** [fetchTodos]: [const response = await axios.get<Todo[]>(url);
    dispatch<FetchTodosAction>({ type: ActionTypes.fetchTodos,
                                 payload: response.data })].
    The outcome of the awaited request is the argument: the data of the
    response, or [None] when the request fails, in which case the line with
    [dispatch] is not reached.  The result is what gets dispatched. *)
Definition fetchTodos (response : option (list Todo)) : list Action :=
  match response with
  | Some data => [FetchTodosAction data]
  | None => []
  end.

(** ** The component: [components/App.tsx] *)

(** [mapStateToProps = ({ todos }: StoreState) => ({ todos })] *)
Definition mapStateToProps (state : StoreState) : list Todo := todos state.

(** [interface AppState { fetching: boolean }] *)
Record AppState : Type := mkAppState {
  fetching : bool;
}.

(** A rendered [<div onClick=... key=...>{...}</div>]: the action that a
    click on it dispatches, its key and its text. *)
Record Element : Type := mkElement {
  onClick : Action;
  key : Z;
  children : string;
}.

(** [onTodoClick = (id: number): void => { this.props.deleteTodo(id); }],
    where [this.props.deleteTodo] is [deleteTodo] bound to the store, so that
    the action it builds is dispatched. *)
Definition onTodoClick (id : Z) : Action := deleteTodo id.

(** [renderList() { return this.props.todos.map((todo: Todo) =>
      <div onClick={() => this.onTodoClick(todo.id)} key={todo.id}>
        {todo.title}</div>); }] *)
Definition renderList (props_todos : list Todo) : list Element :=
  (λ todo, {| onClick := onTodoClick (id todo);
              key := id todo;
              children := title todo |}) <$> props_todos.

(** [componentDidUpdate(prevProps) {
       if (!prevProps.todos.length && this.props.todos.length) {
         this.setState({ fetching: false }); } }] *)
Definition componentDidUpdate (prevProps props : list Todo) (st : AppState)
  : AppState :=
  if (length prevProps =? 0)%nat && negb (length props =? 0)%nat
  then {| fetching := false |}
  else st.

(** The page: the state of the store and the state of the component, which
    starts as [{ fetching: false }] in the constructor. *)
Record Page : Type := mkPage {
  page_store : StoreState;
  page_state : AppState;
}.

Definition initial_page : Page :=
  {| page_store := initial_state; page_state := {| fetching := false |} |}.

(** After the store or the component state has changed the component is
    rendered again and [componentDidUpdate] runs with the props it had
    before. *)
Definition updated (prev : StoreState) (page : Page) : Page :=
  {| page_store := page_store page;
     page_state := componentDidUpdate (mapStateToProps prev)
                     (mapStateToProps (page_store page)) (page_state page) |}.

Definition store_dispatch (page : Page) (action : Action) : Page :=
  updated (page_store page)
    {| page_store := dispatch (page_store page) action;
       page_state := page_state page |}.

(** [onButtonClick = (): void => { this.props.fetchTodos();
                                    this.setState({ fetching: true }); }].
    The request is only started here; its response is an event of its
    own. *)
Definition onButtonClick (page : Page) : Page :=
  updated (page_store page)
    {| page_store := page_store page;
       page_state := {| fetching := true |} |}.

(** What can happen to the page: a click on the button, the outcome of a
    request, and a click on the [i]-th rendered item. *)
Inductive Event : Type :=
  | ButtonClick
  | Response (response : option (list Todo))
  | TodoClick (i : nat).

Definition step (page : Page) (event : Event) : Page :=
  match event with
  | ButtonClick => onButtonClick page
  | Response response => foldl store_dispatch page (fetchTodos response)
  | TodoClick i =>
      match renderList (mapStateToProps (page_store page)) !! i with
      | Some element => store_dispatch page (onClick element)
      | None => page
      end
  end.

Definition run (page : Page) (events : list Event) : Page :=
  foldl step page events.

(** The actions an event sends to the store of a page. *)
Definition event_actions (page : Page) (event : Event) : list Action :=
  match event with
  | ButtonClick => []
  | Response response => fetchTodos response
  | TodoClick i =>
      match renderList (mapStateToProps (page_store page)) !! i with
      | Some element => [onClick element]
      | None => []
      end
  end.

(** A response that brings data. *)
Definition brings_data (event : Event) : bool :=
  match event with
  | Response (Some _) => true
  | _ => false
  end.

(** Events that cannot make a list that is shown empty: clicks on the
    button, failed requests and responses with at least one item. *)
Definition keeps_items (event : Event) : bool :=
  match event with
  | ButtonClick | Response None => true
  | Response (Some data) => negb (length data =? 0)%nat
  | TodoClick _ => false
  end.

(** ** Action creators, with what they touch *)

(** What a call of an action creator could touch: the action objects that
    exist, the actions that have been sent to the store and the requests
    that have been made. *)
Record World : Type := mkWorld {
  objects : gmap nat Action;
  dispatched : list Action;
  requests : list string;
}.

(** What a call of an action creator hands back: an action object, which
    exists when the call returns, or a function for the thunk middleware,
    which makes its request and dispatches when it is run later on (this is
    what [fetchTodos()] hands back). *)
Inductive Created : Type :=
  | ActionObject (l : loc)
  | ThunkFunction (thunk : World → option (list Todo) → World).

(** An object literal [{ type: ..., payload: ... }]: a new object at a
    location that is not in use. *)
Definition new_object (w : World) (action : Action) : World * loc :=
  let l := fresh (dom (objects w)) in
  ({| objects := <[l := action]> (objects w);
      dispatched := dispatched w;
      requests := requests w |}, l).

(** [deleteTodo = (id: number): DeleteTodoAction =>
      { return { type: ActionTypes.deleteTodo, payload: id }; }]
    with the world made explicit. *)
Definition deleteTodoRef (w : World) (id : Z) : World * Created :=
  let '(w, l) := new_object w (DeleteTodoAction id) in
  (w, ActionObject l).

(** [const url = "https://jsonplaceholder.typicode.com/todos"] *)
Definition url : string := "https://jsonplaceholder.typicode.com/todos".

(** The function that [fetchTodos()] hands back, run on the outcome of its
    request: [const response = await axios.get<Todo[]>(url);
    dispatch<FetchTodosAction>({ type: ActionTypes.fetchTodos,
                                 payload: response.data })]. *)
Definition fetchTodos_thunk (w : World) (response : option (list Todo))
  : World :=
  let w := {| objects := objects w;
              dispatched := dispatched w;
              requests := requests w ++ [url] |} in
  match response with
  | Some data =>
      let '(w, _) := new_object w (FetchTodosAction data) in
      {| objects := objects w;
         dispatched := dispatched w ++ [FetchTodosAction data];
         requests := requests w |}
  | None => w
  end.

(** [fetchTodos = () => { return async (dispatch: Dispatch) => {...}; }] *)
Definition fetchTodosRef (w : World) : World * Created :=
  (w, ThunkFunction fetchTodos_thunk).

(** * Properties *)

(** ** Deleting by identifier: facts about the filter *)

Section delete_facts.
Implicit Types (state : list Todo) (k : Z) (todo : Todo).

Lemma delete_nil k : todosReducer [] (DeleteTodoAction k) = [].
Proof. reflexivity. Qed.

Lemma delete_cons_eq todo state :
  todosReducer (todo :: state) (DeleteTodoAction (id todo))
  = todosReducer state (DeleteTodoAction (id todo)).
Proof. simpl. rewrite filter_cons_False; [done | by intros []]. Qed.

Lemma delete_cons_ne todo state k :
  id todo ≠ k →
  todosReducer (todo :: state) (DeleteTodoAction k)
  = todo :: todosReducer state (DeleteTodoAction k).
Proof. intros Hne. simpl. by rewrite filter_cons_True. Qed.

Lemma delete_app state1 state2 k :
  todosReducer (state1 ++ state2) (DeleteTodoAction k)
  = todosReducer state1 (DeleteTodoAction k)
    ++ todosReducer state2 (DeleteTodoAction k).
Proof. apply filter_app. Qed.

Lemma elem_of_delete todo state k :
  todo ∈ todosReducer state (DeleteTodoAction k)
  ↔ todo ∈ state ∧ id todo ≠ k.
Proof. simpl. rewrite list_elem_of_filter. tauto. Qed.

Lemma ids_delete_absent state k :
  k ∉ ids (todosReducer state (DeleteTodoAction k)).
Proof.
  unfold ids. intros (todo & Hk & Hin)%list_elem_of_fmap.
  apply elem_of_delete in Hin as [_ Hne]. congruence.
Qed.

Lemma delete_absent state k :
  k ∉ ids state → todosReducer state (DeleteTodoAction k) = state.
Proof.
  induction state as [|todo state IH]; [done|].
  unfold ids. rewrite fmap_cons, not_elem_of_cons. intros [Hne Hnin].
  rewrite delete_cons_ne by done. f_equal. by apply IH.
Qed.

Lemma delete_sublist state k :
  todosReducer state (DeleteTodoAction k) `sublist_of` state.
Proof. apply sublist_filter. Qed.

(** A sublist that avoids [k] survives the deletion of [k]. *)
Lemma sublist_delete state' state k :
  state' `sublist_of` state → k ∉ ids state' →
  state' `sublist_of` todosReducer state (DeleteTodoAction k).
Proof.
  induction 1 as [|todo l1 l2 _ IH|todo l1 l2 _ IH]; intros Hk.
  - constructor.
  - unfold ids in Hk. rewrite fmap_cons, not_elem_of_cons in Hk.
    destruct Hk as [Hne Hk]. rewrite delete_cons_ne by done.
    constructor. by apply IH.
  - destruct (decide (id todo = k)) as [<-|Hne].
    + rewrite delete_cons_eq. by apply IH.
    + rewrite delete_cons_ne by done. constructor. by apply IH.
Qed.

(** The items taken out and the items kept add up to the state. *)
Lemma delete_length state k :
  (length (todosReducer state (DeleteTodoAction k))
   + length (filter (λ todo, id todo = k) state) = length state)%nat.
Proof.
  induction state as [|todo state IH]; [done|].
  destruct (decide (id todo = k)) as [<-|Hne].
  - rewrite delete_cons_eq, filter_cons_True by done. simpl in *. lia.
  - rewrite delete_cons_ne, filter_cons_False by done. simpl in *. lia.
Qed.
End delete_facts.

(** ** Worked examples *)

Example delete_first :
  todosReducer [todo_a; todo_b] (DeleteTodoAction 1) = [todo_b].
Proof. reflexivity. Qed.

Example fetch_into_empty :
  todosReducer [] (FetchTodosAction [todo_a]) = [todo_a].
Proof. reflexivity. Qed.

(** The first action of the store: no state yet and a tag of its own.  The
    default parameter makes the empty list the initial state. *)
Example store_boot : todosReducer_call None (AnyAction redux_init) = [].
Proof. reflexivity. Qed.

Example delete_shared_id :
  todosReducer [todo_a; todo_b; todo_a'] (DeleteTodoAction 1) = [todo_b].
Proof. reflexivity. Qed.

(** ** The contract of the reducer *)

(** C1. On a fetch action the reducer hands back the payload as it is,
    whatever the state was: nothing of the previous state is merged in. *)
Theorem todosReducer_fetch (state payload : list Todo) :
  todosReducer state (FetchTodosAction payload) = payload.
Proof. reflexivity. Qed.

(** C3. An action whose tag is neither [ActionTypes.fetchTodos] nor
    [ActionTypes.deleteTodo], such as the actions the store sends while it
    boots, leaves the state as it is. *)
Theorem todosReducer_unknown (state : list Todo) (action : Action) :
  type action ≠ TNum ActionTypes.fetchTodos →
  type action ≠ TNum ActionTypes.deleteTodo →
  todosReducer state action = state.
Proof. destruct action; simpl; intros Hf Hd; [by destruct Hf | by destruct Hd | done]. Qed.

Lemma todosReducer_unknown_witness :
  (type (AnyAction redux_init) ≠ TNum ActionTypes.fetchTodos)
  ∧ (type (AnyAction redux_init) ≠ TNum ActionTypes.deleteTodo)
  ∧ todosReducer [todo_a; todo_b] (AnyAction redux_init) = [todo_a; todo_b].
Proof.
  split; [discriminate|]. split; [discriminate|].
  apply (todosReducer_unknown [todo_a; todo_b] (AnyAction redux_init));
    discriminate.
Defined.

(** C4. Deleting an identifier that no item of the state carries gives back
    a list equal to the state. *)
Theorem todosReducer_delete_absent (state : list Todo) (absent_id : Z) :
  absent_id ∉ ids state →
  todosReducer state (DeleteTodoAction absent_id) = state.
Proof. apply delete_absent. Qed.

Lemma todosReducer_delete_absent_witness :
  (3 ∉ ids [todo_a; todo_b])
  ∧ todosReducer [todo_a; todo_b] (DeleteTodoAction 3) = [todo_a; todo_b].
Proof.
  assert (H : 3 ∉ ids [todo_a; todo_b]) by compute_done.
  split; [exact H|]. exact (todosReducer_delete_absent [todo_a; todo_b] 3 H).
Defined.

Lemma new_object_fresh (w : World) (action : Action) :
  (new_object w action).2 ∉ dom (objects w).
Proof. apply is_fresh. Qed.

Lemma new_object_lookup (w : World) (action : Action) :
  objects (new_object w action).1 !! (new_object w action).2 = Some action.
Proof. apply lookup_insert_eq. Qed.

Lemma new_object_other (w : World) (action : Action) (l : loc) :
  l ≠ (new_object w action).2 →
  objects (new_object w action).1 !! l = objects w !! l.
Proof. intros Hne. simpl. by rewrite lookup_insert_ne. Qed.

(** Unlike [deleteTodo], [fetchTodos] hands back a function, which makes a
    request when it is run and, when the request succeeds, sends an action
    to the store. *)
Lemma fetchTodosRef_effects (w : World) (response : option (list Todo)) :
  ∃ thunk,
    fetchTodosRef w = (w, ThunkFunction thunk)
    ∧ requests (thunk w response) = requests w ++ [url]
    ∧ dispatched (thunk w response) = dispatched w ++ fetchTodos response.
Proof.
  exists fetchTodos_thunk. split; [done|].
  destruct response; simpl; by rewrite ?app_nil_r.
Qed.

(** C8. A call of [deleteTodo] with [k] hands back an action object, not
    something to be run later: the object exists when the call returns, is
    the delete action, with tag [ActionTypes.deleteTodo] and payload [k], and
    is new.  Building it is all the call does: every object that existed is
    as it was and no other object has appeared, nothing has been sent to the
    store and no request has been made. *)
Theorem deleteTodo_action (w : World) (k : Z) :
  ∃ l,
    ((deleteTodoRef w k).2 = ActionObject l)
    ∧ (objects (deleteTodoRef w k).1 !! l = Some (deleteTodo k))
    ∧ (deleteTodo k = DeleteTodoAction k)
    ∧ (type (deleteTodo k) = TNum ActionTypes.deleteTodo)
    ∧ (l ∉ dom (objects w))
    ∧ (∀ l', l' ≠ l → objects (deleteTodoRef w k).1 !! l' = objects w !! l')
    ∧ (dispatched (deleteTodoRef w k).1 = dispatched w)
    ∧ (requests (deleteTodoRef w k).1 = requests w).
Proof.
  exists (new_object w (DeleteTodoAction k)).2.
  split; [reflexivity|].
  split; [apply (new_object_lookup w (DeleteTodoAction k))|].
  split; [reflexivity|]. split; [reflexivity|].
  split; [apply new_object_fresh|].
  split; [|by split].
  intros l' Hne. by apply (new_object_other w (DeleteTodoAction k)).
Qed.

Example deleteTodo_call :
  deleteTodoRef {| objects := ∅; dispatched := []; requests := [] |} 7
  = ({| objects := {[ 0%nat := DeleteTodoAction 7 ]};
        dispatched := []; requests := [] |}, ActionObject 0).
Proof. reflexivity. Qed.

(** C9. Deleting [k] takes out every item whose identifier is [k], not only
    the first one: no item of the result carries [k], the items of the result
    are the items of the state with another identifier, and the number of
    items taken out is the number of items that carried [k]. *)
Theorem todosReducer_delete_all (state : list Todo) (k : Z) :
  (k ∉ ids (todosReducer state (DeleteTodoAction k)))
  ∧ (∀ todo, todo ∈ todosReducer state (DeleteTodoAction k)
             ↔ todo ∈ state ∧ id todo ≠ k)
  ∧ (length (todosReducer state (DeleteTodoAction k))
     + length (filter (λ todo, id todo = k) state) = length state)%nat.
Proof.
  split; [apply ids_delete_absent|].
  split; [intros todo; apply elem_of_delete | apply delete_length].
Qed.

(** C10. Deleting the same identifier twice is the same as deleting it
    once. *)
Theorem todosReducer_delete_idempotent (state : list Todo) (k : Z) :
  todosReducer (todosReducer state (DeleteTodoAction k)) (DeleteTodoAction k)
  = todosReducer state (DeleteTodoAction k).
Proof. apply delete_absent, ids_delete_absent. Qed.

(** ** Deleting an identifier that is present *)

Lemma ids_app (l1 l2 : list Todo) : ids (l1 ++ l2) = ids l1 ++ ids l2.
Proof. apply fmap_app. Qed.

(** With the identifier on one item only, that item is the one taken out. *)
Lemma delete_single (l1 l2 : list Todo) (todo : Todo) :
  id todo ∉ ids l1 → id todo ∉ ids l2 →
  todosReducer (l1 ++ todo :: l2) (DeleteTodoAction (id todo)) = l1 ++ l2.
Proof.
  intros H1 H2. rewrite delete_app, delete_cons_eq.
  by rewrite !delete_absent.
Qed.

Lemma delete_unique_excludes_one (state : list Todo) (k : Z) :
  k ∈ ids state → unique_ids state →
  excludes_one state k (todosReducer state (DeleteTodoAction k)).
Proof.
  intros (todo & -> & Hin)%list_elem_of_fmap Huniq.
  apply list_elem_of_split in Hin as (l1 & l2 & ->).
  unfold unique_ids in Huniq. rewrite ids_app in Huniq.
  apply NoDup_app in Huniq as (_ & Hl1 & Hl2).
  unfold ids in Hl2 at 1. rewrite fmap_cons in Hl2.
  apply NoDup_cons in Hl2 as [Hl2 _].
  exists l1, todo, l2. split; [done|]. split; [done|].
  apply delete_single; [|done].
  intros Hk. apply (Hl1 _ Hk). unfold ids. rewrite fmap_cons. left.
Qed.

(** C2, as the code has it.  When the state holds an item with identifier
    [k], the result of deleting [k] is the state without the items that carry
    [k], in their order: it is a sublist of the state, no item of it carries
    [k], and every sublist of the state that avoids [k] is a sublist of it,
    so that nothing else has been dropped.  It is shorter than the state.
    When the identifiers of the state are pairwise distinct, exactly the one
    item with identifier [k] has been taken out. *)
Theorem todosReducer_delete_present (state : list Todo) (k : Z) :
  k ∈ ids state →
  (todosReducer state (DeleteTodoAction k) `sublist_of` state)
  ∧ (k ∉ ids (todosReducer state (DeleteTodoAction k)))
  ∧ (∀ state', state' `sublist_of` state → k ∉ ids state' →
               state' `sublist_of` todosReducer state (DeleteTodoAction k))
  ∧ (length (todosReducer state (DeleteTodoAction k)) < length state)%nat
  ∧ (unique_ids state →
     excludes_one state k (todosReducer state (DeleteTodoAction k))).
Proof.
  intros Hk. split; [apply delete_sublist|].
  split; [apply ids_delete_absent|].
  split; [intros state'; apply sublist_delete|].
  split; [|by apply delete_unique_excludes_one].
  apply list_elem_of_fmap in Hk as (todo & -> & Hin).
  simpl. apply (length_filter_lt _ _ todo); [done|]. by intros [].
Qed.

Lemma todosReducer_delete_present_witness :
  (1 ∈ ids [todo_a; todo_b])
  ∧ todosReducer [todo_a; todo_b] (DeleteTodoAction 1) = [todo_b]
  ∧ excludes_one [todo_a; todo_b] 1
      (todosReducer [todo_a; todo_b] (DeleteTodoAction 1)).
Proof.
  assert (Hk : 1 ∈ ids [todo_a; todo_b]) by compute_done.
  assert (Hu : unique_ids [todo_a; todo_b]) by compute_done.
  split; [exact Hk|]. split; [reflexivity|].
  exact (proj2 (proj2 (proj2 (proj2
    (todosReducer_delete_present [todo_a; todo_b] 1 Hk)))) Hu).
Defined.

(** C2, as it is worded, fails on a state in which two items share the
    identifier: both go, so the result is not the state with one item taken
    out. *)
Lemma todosReducer_delete_present_shared_id :
  ¬ (1 ∈ ids [todo_a; todo_a'] →
     excludes_one [todo_a; todo_a'] 1
       (todosReducer [todo_a; todo_a'] (DeleteTodoAction 1))).
Proof.
  intros H. destruct H as (l1 & todo & l2 & Hstate & _ & Hresult).
  { compute_done. }
  change (todosReducer [todo_a; todo_a'] (DeleteTodoAction 1))
    with (@nil Todo) in Hresult.
  symmetry in Hresult. apply app_eq_nil in Hresult as [-> ->].
  discriminate Hstate.
Qed.

(** ** Uniqueness of the identifiers *)

(** C5, as the code has it.  Pairwise distinct identifiers are kept by a
    delete action and by an unknown action; after a fetch action the state is
    the payload, so the identifiers are pairwise distinct when those of the
    payload are. *)
Theorem todosReducer_unique_ids (state : list Todo) (action : Action) :
  unique_ids state →
  (∀ payload, action = FetchTodosAction payload → unique_ids payload) →
  unique_ids (todosReducer state action).
Proof.
  intros Hstate Hpayload. destruct action as [payload|k|s]; simpl.
  - by apply Hpayload.
  - unfold unique_ids, ids in *.
    apply (sublist_NoDup _ (id <$> state)); [exact Hstate|].
    apply fmap_sublist, sublist_filter.
  - done.
Qed.

Lemma todosReducer_unique_ids_witness :
  unique_ids [todo_a; todo_b]
  ∧ unique_ids (todosReducer [todo_a; todo_b] (DeleteTodoAction 1)).
Proof.
  assert (Hu : unique_ids [todo_a; todo_b]) by compute_done.
  split; [exact Hu|].
  apply (todosReducer_unique_ids [todo_a; todo_b] (DeleteTodoAction 1) Hu).
  intros payload Heq. discriminate Heq.
Defined.

(** C5, as it is worded, fails on a fetch action whose payload repeats an
    identifier: the payload becomes the state as it is. *)
Lemma todosReducer_unique_ids_fetch_repeated :
  ¬ (unique_ids [] →
     unique_ids (todosReducer [] (FetchTodosAction [todo_a; todo_a']))).
Proof.
  intros H. assert (Hnil : unique_ids []) by compute_done.
  apply H in Hnil. revert Hnil. compute_done.
Qed.

(** ** The reducer on references *)

Lemma alloc_fresh (h : store) (v : list Todo) : (alloc h v).2 ∉ dom h.
Proof. apply is_fresh. Qed.

Lemma alloc_subseteq (h : store) (v : list Todo) : h ⊆ (alloc h v).1.
Proof. apply insert_subseteq, not_elem_of_dom, is_fresh. Qed.

Lemma alloc_lookup (h : store) (v : list Todo) :
  (alloc h v).1 !! (alloc h v).2 = Some v.
Proof. apply lookup_insert_eq. Qed.

(** The store after the default parameter has been evaluated, and the
    reference the body then works on. *)
Lemma default_state (h : store) (state : option loc) (s : list Todo) :
  state_in h state = Some s →
  ∃ h1 l,
    match state with Some l0 => (h, l0) | None => alloc h [] end = (h1, l)
    ∧ h ⊆ h1 ∧ h1 !! l = Some s
    ∧ match state with Some l0 => l = l0 | None => l ∉ dom h end.
Proof.
  destruct state as [l0|]; simpl; intros Hs.
  - by exists h, l0.
  - injection Hs as <-. exists (alloc h []).1, (alloc h []).2.
    split; [by destruct (alloc h [])|].
    split; [apply alloc_subseteq|].
    split; [apply alloc_lookup | apply alloc_fresh].
Qed.

(** Every array of the store the call started from is still there with the
    same contents afterwards. *)
Lemma todosReducerRef_frame (h h' : store) (state : option loc)
    (action : ActionRef) (r : loc) :
  todosReducerRef h state action = Some (h', r) → h ⊆ h'.
Proof.
  unfold todosReducerRef.
  assert (H1 : h ⊆ (match state with Some l => (h, l) | None => alloc h [] end).1).
  { destruct state; [done | apply alloc_subseteq]. }
  destruct (match state with Some l => (h, l) | None => alloc h [] end)
    as [h1 l]. simpl in H1.
  destruct action as [p|k|s]; simpl.
  - by intros [= <- <-].
  - destruct (h1 !! l) as [arr|]; simpl; [|done].
    intros [= <- <-]. etrans; [exact H1 | apply alloc_subseteq].
  - by intros [= <- <-].
Qed.

(** The reference the call hands back holds what [todosReducer] computes
    from the contents. *)
Lemma todosReducerRef_contents (h : store) (state : option loc)
    (action : ActionRef) (s : list Todo) (a : Action) :
  state_in h state = Some s → action_in h action = Some a →
  ∃ h' r, todosReducerRef h state action = Some (h', r)
          ∧ h' !! r = Some (todosReducer s a).
Proof.
  intros Hs Ha. unfold todosReducerRef.
  destruct (default_state h state s Hs) as (h1 & l & -> & Hsub & Hl & _).
  destruct action as [p|k|t]; simpl in *.
  - destruct (h !! p) as [payload|] eqn:Hp; [|done].
    injection Ha as <-. exists h1, p. split; [done|].
    by apply (lookup_weaken h).
  - injection Ha as <-. rewrite Hl. simpl.
    eexists _, _. split; [done|]. apply alloc_lookup.
  - injection Ha as <-. by exists h1, l.
Qed.

(** C7. On its declared domain, a state that is an array of the store or
    is left out and an action that is well formed in the store, the reducer
    returns: it does not fail in any branch.  Every array that existed before
    the call is unchanged after it, and what is returned is an array holding
    the value of [todosReducer], with the empty array standing in for a
    state that was left out. *)
Theorem todosReducerRef_total (h : store) (state : option loc)
    (action : ActionRef) (s : list Todo) (a : Action) :
  state_in h state = Some s → action_in h action = Some a →
  ∃ h' r, todosReducerRef h state action = Some (h', r)
          ∧ h ⊆ h'
          ∧ h' !! r = Some (todosReducer s a)
          ∧ todosReducer s a = todosReducer_call (state ≫= (h !!.)) a.
Proof.
  intros Hs Ha.
  destruct (todosReducerRef_contents h state action s a Hs Ha)
    as (h' & r & Hrun & Hr).
  exists h', r. split; [done|].
  split; [by eapply todosReducerRef_frame|]. split; [done|].
  unfold todosReducer_call. destruct state as [l|]; simpl in *.
  - by rewrite Hs.
  - by injection Hs as <-.
Qed.

Lemma todosReducerRef_total_witness :
  state_in {[ 0%nat := [todo_a; todo_b] ]} (Some 0%nat)
    = Some [todo_a; todo_b]
  ∧ action_in {[ 0%nat := [todo_a; todo_b] ]} (DeleteTodoRef 1)
    = Some (DeleteTodoAction 1)
  ∧ ∃ h' r,
      todosReducerRef {[ 0%nat := [todo_a; todo_b] ]} (Some 0%nat)
        (DeleteTodoRef 1) = Some (h', r)
      ∧ h' !! r = Some [todo_b].
Proof.
  assert (Hs : state_in {[ 0%nat := [todo_a; todo_b] ]} (Some 0%nat)
               = Some [todo_a; todo_b]) by reflexivity.
  assert (Ha : action_in {[ 0%nat := [todo_a; todo_b] ]} (DeleteTodoRef 1)
               = Some (DeleteTodoAction 1)) by reflexivity.
  split; [exact Hs|]. split; [exact Ha|].
  destruct (todosReducerRef_total _ _ _ _ _ Hs Ha)
    as (h' & r & Hrun & _ & Hr & _).
  exists h', r. split; [exact Hrun | exact Hr].
Defined.

(** C6, as the code has it.  No array that existed before the call is
    changed by it, the state among them.  What is handed back is a new array
    only for a delete action (and for a state that was left out, where the
    default is built); a fetch action hands back the payload array itself and
    an unknown action the state array itself. *)
Theorem todosReducerRef_result (h h' : store) (state : option loc)
    (action : ActionRef) (r : loc) :
  todosReducerRef h state action = Some (h', r) →
  h ⊆ h'
  ∧ match action, state with
    | FetchTodosRef payload, _ => r = payload
    | DeleteTodoRef _, _ => r ∉ dom h
    | AnyRef _, Some l => r = l
    | AnyRef _, None => r ∉ dom h
    end.
Proof.
  intros Hrun. split; [by eapply todosReducerRef_frame|].
  revert Hrun. unfold todosReducerRef.
  assert (H1 : h ⊆ (match state with Some l => (h, l) | None => alloc h [] end).1).
  { destruct state; [done | apply alloc_subseteq]. }
  destruct action as [p|k|t].
  - destruct (match state with Some l => (h, l) | None => alloc h [] end).
    by intros [= <- <-].
  - destruct (match state with Some l => (h, l) | None => alloc h [] end)
      as [h1 l]. simpl in *.
    destruct (h1 !! l) as [arr|]; simpl; [|done]. intros [= <- <-].
    intros Hin. apply (alloc_fresh h1 (filter (λ todo, id todo ≠ k) arr)).
    revert Hin. apply subseteq_dom in H1. set_solver.
  - destruct state as [l|]; simpl.
    + by intros [= <- <-].
    + intros [= <- <-]. apply is_fresh.
Qed.

Lemma todosReducerRef_result_witness :
  todosReducerRef {[ 0%nat := [todo_a; todo_b] ]} (Some 0%nat)
    (DeleteTodoRef 1)
  = Some (<[ 1%nat := [todo_b] ]> {[ 0%nat := [todo_a; todo_b] ]}, 1%nat)
  ∧ ({[ 0%nat := [todo_a; todo_b] ]}
       ⊆ <[ 1%nat := [todo_b] ]> ({[ 0%nat := [todo_a; todo_b] ]} : store))
  ∧ (1%nat ∉ dom ({[ 0%nat := [todo_a; todo_b] ]} : store)).
Proof.
  assert (Hrun :
    todosReducerRef {[ 0%nat := [todo_a; todo_b] ]} (Some 0%nat)
      (DeleteTodoRef 1)
    = Some (<[ 1%nat := [todo_b] ]> {[ 0%nat := [todo_a; todo_b] ]}, 1%nat))
    by (vm_compute; reflexivity).
  split; [exact Hrun|].
  exact (todosReducerRef_result _ _ _ _ _ Hrun).
Defined.

(** C6, as it is worded, fails on an unknown action: the reference handed
    back is the state reference itself, not a new array. *)
Lemma todosReducerRef_unknown_returns_state :
  ¬ returns_new_array {[ 0%nat := [todo_a; todo_b] ]} (Some 0%nat)
      (AnyRef redux_init).
Proof.
  intros H.
  apply (H {[ 0%nat := [todo_a; todo_b] ]} 0%nat); [reflexivity|].
  apply elem_of_dom. by eexists.
Qed.

(** * The store over sequences of actions *)

Section store_facts.
Implicit Types (s : StoreState) (a : Action) (actions : list Action).

Lemma todos_dispatch s a : todos (dispatch s a) = todosReducer (todos s) a.
Proof. reflexivity. Qed.

Lemma StoreState_eq s1 s2 : todos s1 = todos s2 → s1 = s2.
Proof. destruct s1, s2; simpl; by intros ->. Qed.

Lemma dispatch_all_app s actions1 actions2 :
  dispatch_all s (actions1 ++ actions2)
  = dispatch_all (dispatch_all s actions1) actions2.
Proof. apply foldl_app. Qed.

Lemma dispatch_all_cons s a actions :
  dispatch_all s (a :: actions) = dispatch_all (dispatch s a) actions.
Proof. reflexivity. Qed.

Lemma dispatch_fetch s payload :
  dispatch s (FetchTodosAction payload) = {| todos := payload |}.
Proof. reflexivity. Qed.

(** A series of deletions is one filter. *)
Lemma dispatch_all_deletes s (ks : list Z) :
  todos (dispatch_all s (DeleteTodoAction <$> ks))
  = filter (λ todo, id todo ∉ ks) (todos s).
Proof.
  revert s. induction ks as [|k ks IH]; intros s.
  - simpl. induction (todos s) as [|todo l IHl]; [done|].
    rewrite filter_cons_True by apply not_elem_of_nil. by f_equal.
  - rewrite fmap_cons, dispatch_all_cons, IH, todos_dispatch. simpl.
    rewrite list_filter_filter. apply list_filter_iff.
    intros todo. rewrite not_elem_of_cons. tauto.
Qed.

Lemma dispatch_sublist s a :
  is_fetch a = false → todos (dispatch s a) `sublist_of` todos s.
Proof.
  destruct a as [payload|k|t]; [done| |done]; intros _.
  apply sublist_filter.
Qed.

Lemma dispatch_all_sublist s actions :
  Forall (λ a, is_fetch a = false) actions →
  todos (dispatch_all s actions) `sublist_of` todos s.
Proof.
  intros Hall. revert s.
  induction Hall as [|a actions Ha _ IH]; intros s; [done|].
  rewrite dispatch_all_cons. etrans; [apply IH|]. by apply dispatch_sublist.
Qed.

Lemma unique_ids_sublist (l1 l2 : list Todo) :
  l1 `sublist_of` l2 → unique_ids l2 → unique_ids l1.
Proof.
  intros Hsub Hu. unfold unique_ids, ids in *.
  apply (sublist_NoDup _ (id <$> l2)); [exact Hu | by apply fmap_sublist].
Qed.
End store_facts.

(** X1. A fetch action wipes the history: what the store holds after a
    sequence of actions is decided by the payload of the last fetch action
    and the actions that came after it. *)
Theorem dispatch_all_last_fetch (s : StoreState)
    (before after : list Action) (payload : list Todo) :
  dispatch_all s (before ++ FetchTodosAction payload :: after)
  = dispatch_all {| todos := payload |} after.
Proof. by rewrite dispatch_all_app, dispatch_all_cons, dispatch_fetch. Qed.

(** X2. A fetch followed by deletions of the identifiers [ks], in any number
    and with repetitions, leaves the items of the payload whose identifier is
    not among [ks], in the order of the payload. *)
Theorem dispatch_all_fetch_deletes (s : StoreState) (payload : list Todo)
    (ks : list Z) :
  todos (dispatch_all s
           (FetchTodosAction payload :: (DeleteTodoAction <$> ks)))
  = filter (λ todo, id todo ∉ ks) payload.
Proof. by rewrite dispatch_all_cons, dispatch_fetch, dispatch_all_deletes. Qed.

(** X3. The order in which identifiers are deleted does not matter, nor
    how often each is deleted: two series of deletions with the same set of
    identifiers lead to the same state. *)
Theorem dispatch_all_deletes_order (s : StoreState) (ks1 ks2 : list Z) :
  (∀ k, k ∈ ks1 ↔ k ∈ ks2) →
  dispatch_all s (DeleteTodoAction <$> ks1)
  = dispatch_all s (DeleteTodoAction <$> ks2).
Proof.
  intros Hks. apply StoreState_eq. rewrite !dispatch_all_deletes.
  apply list_filter_iff. intros todo. by rewrite Hks.
Qed.

Lemma dispatch_all_deletes_order_witness :
  (∀ k, k ∈ [1; 2; 1] ↔ k ∈ [2; 1])
  ∧ dispatch_all {| todos := [todo_a; todo_b; todo_a'] |}
      (DeleteTodoAction <$> [1; 2; 1])
    = dispatch_all {| todos := [todo_a; todo_b; todo_a'] |}
        (DeleteTodoAction <$> [2; 1]).
Proof.
  assert (H : ∀ k : Z, k ∈ [1; 2; 1] ↔ k ∈ [2; 1]).
  { intros k. rewrite !elem_of_cons, !elem_of_nil. tauto. }
  split; [exact H|].
  exact (dispatch_all_deletes_order _ [1; 2; 1] [2; 1] H).
Defined.

(** X4. Only a fetch action brings items in: after a sequence of actions
    without a fetch action the store holds a sublist of what it held before,
    so nothing is added, repeated or reordered. *)
Theorem dispatch_all_no_fetch_sublist (s : StoreState)
    (actions : list Action) :
  Forall (λ a, is_fetch a = false) actions →
  todos (dispatch_all s actions) `sublist_of` todos s.
Proof. apply dispatch_all_sublist. Qed.

Lemma dispatch_all_no_fetch_sublist_witness :
  Forall (λ a, is_fetch a = false)
    [DeleteTodoAction 1; AnyAction redux_init; DeleteTodoAction 3]
  ∧ todos (dispatch_all {| todos := [todo_a; todo_b] |}
             [DeleteTodoAction 1; AnyAction redux_init; DeleteTodoAction 3])
    `sublist_of` [todo_a; todo_b].
Proof.
  assert (H : Forall (λ a, is_fetch a = false)
                [DeleteTodoAction 1; AnyAction redux_init;
                 DeleteTodoAction 3]).
  { repeat constructor. }
  split; [exact H|].
  exact (dispatch_all_no_fetch_sublist {| todos := [todo_a; todo_b] |} _ H).
Defined.

(** X5. Distinct identifiers are an invariant of the store as long as the
    payloads are sound: when the identifiers of the state are pairwise
    distinct and so are those of the payload of every fetch action in a
    sequence, they are pairwise distinct after the sequence. *)
Theorem dispatch_all_unique_ids (s : StoreState) (actions : list Action) :
  unique_ids (todos s) →
  Forall (λ a, ∀ payload, a = FetchTodosAction payload → unique_ids payload)
    actions →
  unique_ids (todos (dispatch_all s actions)).
Proof.
  intros Hs Hall. revert s Hs.
  induction Hall as [|a actions Ha _ IH]; intros s Hs; [done|].
  rewrite dispatch_all_cons. apply IH.
  destruct a as [payload|k|t].
  - by apply Ha.
  - eapply unique_ids_sublist; [|exact Hs]. by apply dispatch_sublist.
  - done.
Qed.

Lemma dispatch_all_unique_ids_witness :
  unique_ids (todos initial_state)
  ∧ unique_ids
      (todos (dispatch_all initial_state
                [FetchTodosAction [todo_a; todo_b]; DeleteTodoAction 2])).
Proof.
  assert (Hs : unique_ids (todos initial_state)) by compute_done.
  split; [exact Hs|].
  apply (dispatch_all_unique_ids initial_state
           [FetchTodosAction [todo_a; todo_b]; DeleteTodoAction 2] Hs).
  repeat constructor.
  - intros payload [= <-]. compute_done.
  - intros payload Heq. discriminate Heq.
Defined.


(** * The page *)

Section page_facts.
Implicit Types (p : Page) (e : Event) (l : list Todo) (st : AppState).

(** What [componentDidUpdate] does to the flag. *)
Lemma componentDidUpdate_fetching prev l st :
  fetching (componentDidUpdate prev l st)
  = fetching st && negb ((length prev =? 0)%nat && negb (length l =? 0)%nat).
Proof.
  unfold componentDidUpdate.
  destruct ((length prev =? 0)%nat && negb (length l =? 0)%nat); simpl.
  - by rewrite andb_false_r.
  - by rewrite andb_true_r.
Qed.

Lemma componentDidUpdate_nonempty prev l st :
  prev ≠ [] → componentDidUpdate prev l st = st.
Proof. by destruct prev. Qed.

Lemma componentDidUpdate_to_empty prev st :
  componentDidUpdate prev [] st = st.
Proof. unfold componentDidUpdate. simpl. by rewrite andb_false_r. Qed.

Lemma page_store_store_dispatch p a :
  page_store (store_dispatch p a) = dispatch (page_store p) a.
Proof. reflexivity. Qed.

Lemma page_store_onButtonClick p : page_store (onButtonClick p) = page_store p.
Proof. reflexivity. Qed.

Lemma fetching_onButtonClick p : fetching (page_state (onButtonClick p)) = true.
Proof.
  unfold onButtonClick, updated. simpl.
  rewrite componentDidUpdate_fetching. simpl.
  by destruct (length (mapStateToProps (page_store p)) =? 0)%nat.
Qed.

(** The element rendered at a position is made from the item at that
    position. *)
Lemma renderList_lookup l i element :
  renderList l !! i = Some element →
  ∃ todo, l !! i = Some todo
          ∧ onClick element = DeleteTodoAction (id todo)
          ∧ key element = id todo
          ∧ children element = title todo.
Proof.
  unfold renderList. rewrite list_lookup_fmap.
  destruct (l !! i) as [todo|]; simpl; [|done].
  intros [= <-]. by exists todo.
Qed.

Lemma renderList_keys l : key <$> renderList l = ids l.
Proof. unfold renderList, ids. rewrite <- list_fmap_compose. done. Qed.

Lemma renderList_delete l k :
  renderList (todosReducer l (DeleteTodoAction k))
  = filter (λ element, key element ≠ k) (renderList l).
Proof.
  unfold renderList. induction l as [|todo l IH]; [done|].
  destruct (decide (id todo = k)) as [<-|Hne].
  - rewrite delete_cons_eq, IH, fmap_cons.
    rewrite filter_cons_False; [done | by intros []].
  - rewrite delete_cons_ne by done.
    rewrite !fmap_cons, filter_cons_True by done.
    f_equal. apply IH.
Qed.

(** An action that is not a fetch leaves the component state alone. *)
Lemma page_state_store_dispatch p a :
  is_fetch a = false → page_state (store_dispatch p a) = page_state p.
Proof.
  intros Ha. destruct p as [[l] st].
  unfold store_dispatch, updated, mapStateToProps. simpl.
  destruct l as [|todo l].
  - destruct a as [payload|k|t]; [done| |]; apply componentDidUpdate_to_empty.
  - by apply componentDidUpdate_nonempty.
Qed.

Lemma onClick_not_fetch l i element :
  renderList l !! i = Some element → is_fetch (onClick element) = false.
Proof. intros (todo & _ & -> & _)%renderList_lookup. done. Qed.

(** The store of a page sees the actions of the event and nothing else. *)
Lemma page_store_step p e :
  page_store (step p e) = dispatch_all (page_store p) (event_actions p e).
Proof.
  destruct e as [|[data|]|i]; simpl; try done.
  by destruct (renderList (mapStateToProps (page_store p)) !! i).
Qed.

Lemma event_actions_no_fetch p e :
  brings_data e = false →
  Forall (λ a, is_fetch a = false) (event_actions p e).
Proof.
  destruct e as [|[data|]|i]; simpl; intros He; try done.
  destruct (renderList (mapStateToProps (page_store p)) !! i)
    as [element|] eqn:Hi; [|done].
  repeat constructor. by eapply onClick_not_fetch.
Qed.

Lemma step_unique_ids p e :
  unique_ids (todos (page_store p)) →
  (∀ data, e = Response (Some data) → unique_ids data) →
  unique_ids (todos (page_store (step p e))).
Proof.
  intros Hp He. destruct (brings_data e) eqn:Hb.
  - destruct e as [|[data|]|i]; try done. simpl. by apply He.
  - eapply unique_ids_sublist; [|exact Hp]. rewrite page_store_step.
    by apply dispatch_all_sublist, event_actions_no_fetch.
Qed.
(** When an event clears the flag. *)
Lemma step_clears_fetching p e :
  fetching (page_state p) = true →
  fetching (page_state (step p e)) = false
  ↔ ∃ data, e = Response (Some data) ∧ data ≠ [] ∧ todos (page_store p) = [].
Proof.
  intros Hf. destruct e as [|[data|]|i].
  - change (step p ButtonClick) with (onButtonClick p).
    rewrite fetching_onButtonClick. split; [done|].
    by intros (data & Heq & _).
  - destruct p as [[l] [f]]. simpl in Hf. subst f.
    change (step ?q (Response (Some data)))
      with (store_dispatch q (FetchTodosAction data)).
    unfold store_dispatch, updated, mapStateToProps.
    cbn [page_state page_store]. rewrite componentDidUpdate_fetching.
    cbn [fetching todos dispatch reducers todosReducer_call todosReducer
         fmap option_fmap option_map default andb].
    split.
    + intros Hc. exists data. split; [done|].
      destruct l, data; simpl in *; done.
    + intros (data' & [= <-] & Hdata & Hl). simpl in Hl. subst l.
      by destruct data.
  - change (step p (Response None)) with p.
    rewrite Hf. split; [done|]. by intros (data & Heq & _).
  - unfold step.
    destruct (renderList (mapStateToProps (page_store p)) !! i)
      as [element|] eqn:Hi.
    + rewrite page_state_store_dispatch by (by eapply onClick_not_fetch).
      rewrite Hf. split; [done|]. by intros (data & Heq & _).
    + rewrite Hf. split; [done|]. by intros (data & Heq & _).
Qed.
End page_facts.

(** X7. The keys of the rendered items stay pairwise distinct: when the
    identifiers on the page are pairwise distinct and every response that
    brings data brings pairwise distinct identifiers, then after any
    sequence of events no two rendered items have the same key. *)
Theorem run_keys_distinct (page : Page) (events : list Event) :
  unique_ids (todos (page_store page)) →
  Forall (λ e, ∀ data, e = Response (Some data) → unique_ids data) events →
  NoDup (key <$> renderList (mapStateToProps (page_store (run page events)))).
Proof.
  intros Hpage Hall. rewrite renderList_keys.
  change (unique_ids (todos (page_store (run page events)))).
  revert page Hpage.
  induction Hall as [|e events He _ IH]; intros page Hpage; [done|].
  apply IH. by apply step_unique_ids.
Qed.

Lemma run_keys_distinct_witness :
  unique_ids (todos (page_store initial_page))
  ∧ NoDup (key <$> renderList (mapStateToProps (page_store
             (run initial_page
                [ButtonClick; Response (Some [todo_a; todo_b]);
                 TodoClick 0])))).
Proof.
  assert (Hp : unique_ids (todos (page_store initial_page))) by compute_done.
  split; [exact Hp|].
  apply (run_keys_distinct initial_page
           [ButtonClick; Response (Some [todo_a; todo_b]); TodoClick 0] Hp).
  repeat constructor; intros data Heq; try discriminate Heq.
  injection Heq as <-. compute_done.
Defined.

(** X8. A click on a rendered item takes that item out of the list that is
    rendered next, together with every item that has the same key; the
    other items stay as they are and in their order.  The component state
    is not touched. *)
Theorem click_removes_item (page : Page) (i : nat) (element : Element) :
  renderList (mapStateToProps (page_store page)) !! i = Some element →
  renderList (mapStateToProps (page_store (step page (TodoClick i))))
  = filter (λ e, key e ≠ key element)
      (renderList (mapStateToProps (page_store page)))
  ∧ page_state (step page (TodoClick i)) = page_state page.
Proof.
  intros Hi. simpl. rewrite Hi.
  destruct (renderList_lookup _ _ _ Hi) as (todo & _ & Hclick & Hkey & _).
  rewrite Hclick, Hkey. split.
  - apply renderList_delete.
  - by apply page_state_store_dispatch.
Qed.

Lemma click_removes_item_witness :
  renderList (mapStateToProps {| todos := [todo_a; todo_b; todo_a'] |}) !! 0%nat
  = Some {| onClick := DeleteTodoAction 1; key := 1; children := "a" |}
  ∧ key <$> renderList (mapStateToProps (page_store
      (step {| page_store := {| todos := [todo_a; todo_b; todo_a'] |};
               page_state := {| fetching := false |} |} (TodoClick 0))))
    = [2].
Proof.
  assert (Hi : renderList
                 (mapStateToProps {| todos := [todo_a; todo_b; todo_a'] |})
               !! 0%nat
               = Some {| onClick := DeleteTodoAction 1; key := 1;
                         children := "a" |}) by reflexivity.
  split; [exact Hi|].
  rewrite (proj1 (click_removes_item
    {| page_store := {| todos := [todo_a; todo_b; todo_a'] |};
       page_state := {| fetching := false |} |} 0 _ Hi)).
  reflexivity.
Defined.

(** X9. Once the flag [fetching] is set, the only event that clears it is a
    response that brings at least one item while the list is empty.  A
    failed request, an empty response, a response that arrives while items
    are shown, and clicks all leave it set. *)
Theorem fetching_cleared_iff (page : Page) (event : Event) :
  fetching (page_state page) = true →
  fetching (page_state (step page event)) = false
  ↔ ∃ data, event = Response (Some data) ∧ data ≠ []
            ∧ todos (page_store page) = [].
Proof. apply step_clears_fetching. Qed.

Lemma fetching_cleared_iff_witness :
  fetching (page_state (step initial_page ButtonClick)) = true
  ∧ fetching (page_state
      (step (step initial_page ButtonClick) (Response (Some [todo_a]))))
    = false.
Proof.
  assert (Hf : fetching (page_state (step initial_page ButtonClick)) = true)
    by reflexivity.
  split; [exact Hf|].
  apply (fetching_cleared_iff (step initial_page ButtonClick)
           (Response (Some [todo_a])) Hf).
  exists [todo_a]. split; [reflexivity|]. split; [discriminate | reflexivity].
Defined.

(** X10. The flag gets stuck when the list is refreshed: from a page that
    shows items and has [fetching] set, any sequence of clicks on the
    button, failed requests and responses with at least one item leaves
    [fetching] set and the list non-empty. *)
Theorem fetching_stays_set (page : Page) (events : list Event) :
  todos (page_store page) ≠ [] →
  fetching (page_state page) = true →
  Forall (λ e, keeps_items e = true) events →
  fetching (page_state (run page events)) = true
  ∧ todos (page_store (run page events)) ≠ [].
Proof.
  intros Hl Hf Hall. revert page Hl Hf.
  induction Hall as [|e events He _ IH]; intros page Hl Hf; [done|].
  apply IH.
  - destruct e as [|[data|]|i]; simpl in *; try done.
    by destruct data.
  - destruct (fetching (page_state (step page e))) eqn:Hstep; [done|].
    apply step_clears_fetching in Hstep; [|done].
    by destruct Hstep as (data & _ & _ & Hnil).
Qed.

Lemma fetching_stays_set_witness :
  todos (page_store
           {| page_store := {| todos := [todo_a] |};
              page_state := {| fetching := true |} |}) ≠ []
  ∧ fetching (page_state
      (run {| page_store := {| todos := [todo_a] |};
              page_state := {| fetching := true |} |}
           [ButtonClick; Response (Some [todo_a; todo_b]); Response None]))
    = true.
Proof.
  assert (Hl : todos (page_store
                 {| page_store := {| todos := [todo_a] |};
                    page_state := {| fetching := true |} |}) ≠ [])
    by discriminate.
  split; [exact Hl|].
  apply (fetching_stays_set
           {| page_store := {| todos := [todo_a] |};
              page_state := {| fetching := true |} |}
           [ButtonClick; Response (Some [todo_a; todo_b]); Response None]
           Hl eq_refl).
  repeat constructor.
Defined.

(** X11. Items reach the page through a response only: after a sequence of
    events none of which is a response with data, the list is a sublist of
    what it was, whatever was clicked and whichever requests failed.  In
    particular a page with an empty list, such as the first one, still has
    an empty list and renders no item. *)
Theorem run_no_data_sublist (page : Page) (events : list Event) :
  Forall (λ e, brings_data e = false) events →
  todos (page_store (run page events)) `sublist_of` todos (page_store page)
  ∧ (todos (page_store page) = [] →
     renderList (mapStateToProps (page_store (run page events))) = []).
Proof.
  intros Hall.
  assert (Hsub : todos (page_store (run page events))
                   `sublist_of` todos (page_store page)).
  { revert page. induction Hall as [|e events He _ IH]; intros page; [done|].
    etrans; [apply IH|]. rewrite page_store_step.
    by apply dispatch_all_sublist, event_actions_no_fetch. }
  split; [exact Hsub|]. intros Hnil. rewrite Hnil in Hsub.
  apply sublist_nil_r in Hsub. unfold mapStateToProps. by rewrite Hsub.
Qed.

Lemma run_no_data_sublist_witness :
  Forall (λ e, brings_data e = false)
    [TodoClick 0; ButtonClick; Response None; TodoClick 3]
  ∧ renderList (mapStateToProps (page_store
      (run initial_page
         [TodoClick 0; ButtonClick; Response None; TodoClick 3]))) = [].
Proof.
  assert (H : Forall (λ e, brings_data e = false)
                [TodoClick 0; ButtonClick; Response None; TodoClick 3]).
  { repeat constructor. }
  split; [exact H|].
  exact (proj2 (run_no_data_sublist initial_page _ H) eq_refl).
Defined.

(** X12. Deleting an identifier that the state does not hold still builds
    a new array: the reference handed back differs from the state reference
    although both arrays have the same contents, and the state array is left
    as it was. *)
Theorem todosReducerRef_delete_absent_copy (h : store) (l : loc)
    (s : list Todo) (k : Z) :
  h !! l = Some s → k ∉ ids s →
  ∃ h' r, todosReducerRef h (Some l) (DeleteTodoRef k) = Some (h', r)
          ∧ r ≠ l
          ∧ h' !! r = Some s
          ∧ h' !! l = Some s.
Proof.
  intros Hl Hk. unfold todosReducerRef. rewrite Hl. simpl.
  change (filter (λ todo, id todo ≠ k) s)
    with (todosReducer s (DeleteTodoAction k)).
  rewrite (delete_absent s k Hk).
  exists (alloc h s).1, (alloc h s).2. split; [by destruct (alloc h s)|].
  split; [|split].
  - intros Heq. apply (alloc_fresh h s). rewrite Heq.
    apply elem_of_dom. by eexists.
  - apply alloc_lookup.
  - by apply (lookup_weaken h), alloc_subseteq.
Qed.

Lemma todosReducerRef_delete_absent_copy_witness :
  ({[ 0%nat := [todo_a; todo_b] ]} : store) !! 0%nat = Some [todo_a; todo_b]
  ∧ (3 ∉ ids [todo_a; todo_b])
  ∧ ∃ h' r,
      todosReducerRef {[ 0%nat := [todo_a; todo_b] ]} (Some 0%nat)
        (DeleteTodoRef 3) = Some (h', r)
      ∧ r ≠ 0%nat ∧ h' !! r = Some [todo_a; todo_b].
Proof.
  assert (Hl : ({[ 0%nat := [todo_a; todo_b] ]} : store) !! 0%nat
               = Some [todo_a; todo_b]) by reflexivity.
  assert (Hk : 3 ∉ ids [todo_a; todo_b]) by compute_done.
  split; [exact Hl|]. split; [exact Hk|].
  destruct (todosReducerRef_delete_absent_copy _ _ _ _ Hl Hk)
    as (h' & r & Hrun & Hne & Hr & _).
  exists h', r. split; [exact Hrun|]. split; [exact Hne | exact Hr].
Defined.
